(** * dev.js: the CoasterCapital development launcher

    The script prints a banner, starts two shell commands (backend and
    frontend) through [spawn], logs the exit code of each when its
    [close] event arrives, and on SIGINT forwards the signal to both and
    calls [process.exit()].

    The script is embedded as a computation in a small state monad over
    a [World]: the part of the Node.js process the script can touch
    (child handles with their listeners, the listeners of [process], the
    chronological list of effects the operating system sees, and how the
    process has ended, if it has).  The two closures of the script are
    kept as data ([callback]) and run by [call].  Everything the
    environment does (a signal arrives, a child ends, a spawn fails) is
    an [event], handed to the script by [deliver], one run-to-completion
    turn of the event loop per event.

    The primitives follow the documented behaviour of Node.js:
    [spawn] throws at once on an argument it refuses (a NUL character)
    and on an error of the operating system other than EACCES, EAGAIN,
    EMFILE, ENFILE and ENOENT; otherwise it returns its handle at once
    and reports a program that could not be started by an ["error"]
    event; a signal without a listener ends the process only when that
    is its default action; an emitter throws an
    ["error"] event that has no listener; an exception nobody catches
    ends the process; [kill] on a child whose exit was reported does
    nothing; [process.exit()] ends the process inside the turn that
    calls it; a process whose event loop has no open handle left ends
    with code 0. *)

From stdpp Require Import base list strings pretty.
From Stdlib Require Import ZArith Lia.

Local Open Scope string_scope.

(** ** JavaScript values that reach the script *)

Inductive value : Type :=
| VUndefined
| VNull
| VNum (n : Z)
| VStr (s : string)
| VErr (msg : string).

(** Conversion done by a template literal placeholder. *)
Definition to_js_string (v : value) : string :=
  match v with
  | VUndefined => "undefined"
  | VNull => "null"
  | VNum n => pretty n
  | VStr s => s
  | VErr msg => "Error: " +:+ msg
  end.

(** A nullable number or string, as [exitCode] and [signalCode] are. *)
Definition nullable {A : Type} (f : A → value) (o : option A) : value :=
  match o with
  | Some a => f a
  | None => VNull
  end.

(** ** The world of the process *)

Definition handle : Type := nat.

(** The two arrow functions of dev.js, with the variables they capture. *)
Inductive callback : Type :=
| CloseLogger (name : string)
| StopAll (backend frontend : handle).

Inductive stdio_option : Type :=
| StdioPipe
| StdioInherit.

Record ChildProcess : Type := mkChild {
  spawnfile : string;
  spawnargs : list string;
  stdio : stdio_option;
  exitCode : option Z;
  signalCode : option string;
  (* the libuv process handle: open until the exit of the child is reported *)
  handle_open : bool;
  child_listeners : list (string * callback)
}.

(** What leaves the process, in the order it happens. *)
Inductive effect : Type :=
| Print (line : string)
| Spawn (p : handle) (file : string) (args : list string) (io : stdio_option)
| Kill (p : handle) (sig : string) (delivered : bool)
| Exit (code : Z).

Inductive proc_status : Type :=
| Running
| Exited (code : Z)
| Crashed (err : value)
| Signaled (sig : string).

Record World : Type := mkWorld {
  children : list ChildProcess;
  process_listeners : list (string * callback);
  effects : list effect;
  status : proc_status;
  (* the operating system asked to start a program with these arguments:
     the name of the error, when it answers with one that [spawn] throws
     at once (any but EACCES, EAGAIN, EMFILE, ENFILE, ENOENT) *)
  os_refuses : list string → option string
}.

(** Linux refuses to start a program with E2BIG when one argument, with
    its terminating NUL, is longer than 32 pages (131072 bytes). *)
Definition linux_refuses (argv : list string) : option string :=
  if forallb (λ a, (N.of_nat (String.length a) <? 131072)%N) argv
  then None
  else Some "E2BIG".

Definition initial_world : World :=
  {| children := []; process_listeners := []; effects := []; status := Running;
     os_refuses := linux_refuses |}.

Definition is_running (w : World) : bool :=
  match status w with
  | Running => true
  | _ => false
  end.

(** The lines written by [console.log], oldest first. *)
Definition lines (effs : list effect) : list string :=
  omap (λ e, match e with Print l => Some l | _ => None end) effs.

Definition stdout (w : World) : list string := lines (effects w).

(** The processes created so far, oldest first. *)
Definition spawns (effs : list effect) : list handle :=
  omap (λ e, match e with Spawn p _ _ _ => Some p | _ => None end) effs.

Definition spawned (w : World) : list handle := spawns (effects w).

Definition emit_effect (e : effect) (w : World) : World :=
  {| children := children w;
     process_listeners := process_listeners w;
     effects := effects w ++ [e];
     status := status w;
     os_refuses := os_refuses w |}.

Definition set_children (cs : list ChildProcess) (w : World) : World :=
  {| children := cs;
     process_listeners := process_listeners w;
     effects := effects w;
     status := status w;
     os_refuses := os_refuses w |}.

Definition set_status (st : proc_status) (w : World) : World :=
  {| children := children w;
     process_listeners := process_listeners w;
     effects := effects w;
     status := st;
     os_refuses := os_refuses w |}.

(** ** The monad of one turn of JavaScript

    A computation returns, throws, or halts the process
    ([process.exit()] does not return to its caller). *)

Inductive outcome (A : Type) : Type :=
| Ret (a : A)
| Throw (err : value)
| Halt.
Arguments Ret {A} a.
Arguments Throw {A} err.
Arguments Halt {A}.

Definition M (A : Type) : Type := World → outcome A * World.

#[global] Instance M_ret : MRet M := λ A a w, (Ret a, w).

#[global] Instance M_bind : MBind M := λ A B k m w,
  match m w with
  | (Ret a, w') => k a w'
  | (Throw e, w') => (Throw e, w')
  | (Halt, w') => (Halt, w')
  end.

Definition throw {A : Type} (e : value) : M A := λ w, (Throw e, w).

(** ** Runtime primitives the script calls *)

(** [console.log(line)] *)
Definition console_log (line : string) : M unit :=
  λ w, (Ret tt, emit_effect (Print line) w).

Fixpoint has_nul (s : string) : bool :=
  match s with
  | EmptyString => false
  | String c s' => Ascii.eqb c Ascii.zero || has_nul s'
  end.

(** [spawn(file, args, { stdio })].  An empty file name, or a NUL
    character in the file name or in an argument, is refused by the
    validation of the arguments, which throws; so is, by a thrown
    system error, a program the operating system refuses outright.  No
    process is created then.  Otherwise the handle comes back at once;
    whether the program could be started is reported later, as an
    event. *)
Definition spawn (file : string) (args : list string) (io : stdio_option) : M handle :=
  λ w, if String.eqb file "" || has_nul file || existsb has_nul args
       then (Throw (VErr "ERR_INVALID_ARG_VALUE"), w)
       else match os_refuses w (file :: args) with
            | Some errno => (Throw (VErr ("spawn " +:+ errno)), w)
            | None =>
                let p := length (children w) in
                let c := {| spawnfile := file; spawnargs := args; stdio := io;
                            exitCode := None; signalCode := None;
                            handle_open := true; child_listeners := [] |} in
                (Ret p,
                 emit_effect (Spawn p file args io)
                   (set_children (children w ++ [c]) w))
            end.

Definition add_listener (ev : string) (cb : callback) (c : ChildProcess) : ChildProcess :=
  {| spawnfile := spawnfile c; spawnargs := spawnargs c; stdio := stdio c;
     exitCode := exitCode c; signalCode := signalCode c;
     handle_open := handle_open c;
     child_listeners := child_listeners c ++ [(ev, cb)] |}.

(** [p.on(ev, cb)] *)
Definition child_on (p : handle) (ev : string) (cb : callback) : M unit :=
  λ w, (Ret tt, set_children (alter (add_listener ev cb) p (children w)) w).

(** [process.on(ev, cb)] *)
Definition process_on (ev : string) (cb : callback) : M unit :=
  λ w, (Ret tt,
        {| children := children w;
           process_listeners := process_listeners w ++ [(ev, cb)];
           effects := effects w;
           status := status w;
           os_refuses := os_refuses w |}).

(** [p.kill(sig)]: the signal goes out when the handle is still open;
    on a child whose exit was already reported the call does nothing and
    answers [false].  It does not throw in either case. *)
Definition kill (p : handle) (sig : string) : M bool :=
  λ w, let d := match children w !! p with
                | Some c => handle_open c
                | None => false
                end in
       (Ret d, emit_effect (Kill p sig d) w).

(** [process.exit()]: exit code 0 when none was set; never returns. *)
Definition process_exit : M unit :=
  λ w, (Halt, set_status (Exited 0) (emit_effect (Exit 0) w)).

(** ** dev.js *)

Definition nl : string := String (Ascii.ascii_of_nat 10) EmptyString.

Definition banner : string := "=== Starting CoasterCapital Dev Environment ===".
Definition stopping : string := nl +:+ "Stopping all processes...".
Definition backend_command : string :=
  "cd backend && source .venv/bin/activate && uvicorn app.main:app --reload".
Definition frontend_command : string := "cd frontend && npm run dev".

Definition exit_line (name : string) (code : value) : string :=
  "Process " +:+ name +:+ " stopped with code " +:+ to_js_string code.

(** Running a closure of the script on the arguments of an event. *)
Definition call (cb : callback) (args : list value) : M unit :=
  match cb with
  | CloseLogger name =>
      let code := default VUndefined (head args) in
      console_log (exit_line name code)
  | StopAll backend frontend =>
      console_log stopping ;;
      kill backend "SIGINT" ;;
      kill frontend "SIGINT" ;;
      process_exit
  end.

Definition run (command name : string) : M handle :=
  p ← spawn "bash" ["-lc"; command] StdioInherit;
  child_on p "close" (CloseLogger name) ;;
  mret p.

Definition main : M unit :=
  console_log banner ;;
  backend ← run backend_command "backend";
  frontend ← run frontend_command "frontend";
  process_on "SIGINT" (StopAll backend frontend).

(** ** The event loop *)

Definition listeners_for (ev : string) (ls : list (string * callback)) : list callback :=
  omap (λ '(e, cb), if String.eqb e ev then Some cb else None) ls.

Fixpoint call_all (cbs : list callback) (args : list value) : M unit :=
  match cbs with
  | [] => mret tt
  | cb :: rest => call cb args ;; call_all rest args
  end.

(** [emitter.emit(ev, ...args)]: the listeners run in the order they were
    added; an ["error"] event nobody listens to is thrown. *)
Definition emit (ls : list (string * callback)) (ev : string) (args : list value) : M unit :=
  match listeners_for ev ls with
  | [] => if String.eqb ev "error"
          then throw (default VUndefined (head args))
          else mret tt
  | cbs => call_all cbs args
  end.

Definition child_emit (p : handle) (ev : string) (args : list value) : M unit :=
  λ w, match children w !! p with
       | Some c => emit (child_listeners c) ev args w
       | None => (Ret tt, w)
       end.

Definition record_exit (code : option Z) (sig : option string) (c : ChildProcess) : ChildProcess :=
  {| spawnfile := spawnfile c; spawnargs := spawnargs c; stdio := stdio c;
     exitCode := code; signalCode := sig;
     handle_open := false;
     child_listeners := child_listeners c |}.

(** How a child that was started ends: it exits with a code, or a signal
    kills it. *)
Inductive ending : Type :=
| ExitedWith (code : N)
| KilledBy (sig : string).

(** What the environment can report to the process. *)
Inductive event : Type :=
| SignalReceived (sig : string)
| ChildEnded (p : handle) (how : ending)
| SpawnFailed (p : handle) (errno : positive).

(** The exit callback of a child handle: the exit status is stored, the
    handle is closed, then ["error"] (a negative code is a failed spawn)
    or ["exit"] is emitted, and ["close"] follows at once since a child
    with inherited stdio has no stream left to wait for. *)
Definition spawn_error (p : handle) : M value :=
  λ w, (Ret (VErr ("spawn " +:+ default "" (spawnfile <$> children w !! p))), w).

Definition onexit (p : handle) (code : option Z) (sig : option string) : M unit :=
  (λ w, (Ret tt, set_children (alter (record_exit code sig) p (children w)) w)) ;;
  (if (default 0 code <? 0)%Z
   then err ← spawn_error p; child_emit p "error" [err]
   else child_emit p "exit" [nullable VNum code; nullable VStr sig]) ;;
  child_emit p "close" [nullable VNum code; nullable VStr sig].

Definition child_open (p : handle) (w : World) : bool :=
  match children w !! p with
  | Some c => handle_open c
  | None => false
  end.

(** The signals whose default action ends a Node.js process.  The
    others leave it running when nobody listens: SIGCHLD, SIGCONT,
    SIGURG and SIGWINCH are ignored by default, SIGPIPE is ignored by
    Node.js, SIGUSR1 is kept by Node.js for its debugger, and SIGSTOP,
    SIGTSTP, SIGTTIN and SIGTTOU suspend the process, which later goes
    on as it was. *)
Definition fatal_signals : list string :=
  ["SIGHUP"; "SIGINT"; "SIGQUIT"; "SIGILL"; "SIGTRAP"; "SIGABRT"; "SIGBUS";
   "SIGFPE"; "SIGKILL"; "SIGUSR2"; "SIGSEGV"; "SIGALRM"; "SIGTERM";
   "SIGSTKFLT"; "SIGXCPU"; "SIGXFSZ"; "SIGVTALRM"; "SIGPROF"; "SIGIO";
   "SIGPOLL"; "SIGPWR"; "SIGSYS"].

Definition is_fatal (sig : string) : bool := existsb (String.eqb sig) fatal_signals.

(** A signal goes to its listeners; without one it has its default
    action.  The exit of a child is reported once, on its open handle. *)
Definition handler (ev : event) : M unit :=
  match ev with
  | SignalReceived sig =>
      λ w, match listeners_for sig (process_listeners w) with
           | [] => if is_fatal sig
                   then (Halt, set_status (Signaled sig) w)
                   else (Ret tt, w)
           | cbs => call_all cbs [VStr sig] w
           end
  | ChildEnded p (ExitedWith code) =>
      λ w, if child_open p w then onexit p (Some (Z.of_N code)) None w else (Ret tt, w)
  | ChildEnded p (KilledBy sig) =>
      λ w, if child_open p w then onexit p None (Some sig) w else (Ret tt, w)
  | SpawnFailed p errno =>
      λ w, if child_open p w then onexit p (Some (Z.neg errno)) None w else (Ret tt, w)
  end.

(** What the runtime does when a turn ends: an exception nobody caught
    ends the process; so does an event loop with no open handle left
    (signal listeners do not keep the loop alive). *)
Definition settle (r : outcome unit * World) : World :=
  let w := r.2 in
  if is_running w then
    match r.1 with
    | Throw e => set_status (Crashed e) w
    | _ => if existsb handle_open (children w) then w else set_status (Exited 0) w
    end
  else w.

(** One turn of the event loop.  A process that has ended takes no event. *)
Definition deliver (w : World) (ev : event) : World :=
  if is_running w then settle (handler ev w) else w.

(** The process from its start: the script, then the events in order. *)
Definition boot : World := settle (main initial_world).

Definition exec (evs : list event) : World := foldl deliver boot evs.



(** ** Reading a run *)

(** The exit-log lines of the child called [name]. *)
Definition is_exit_line (name line : string) : bool :=
  String.prefix ("Process " +:+ name +:+ " stopped with code ") line.

Definition exit_lines (name : string) (ls : list string) : list string :=
  List.filter (is_exit_line name) ls.

(** The names the script gives to its two children, by handle. *)
Definition names : list string := ["backend"; "frontend"].

(** The value the close listener receives as [code]. *)
Definition ending_code (how : ending) : value :=
  match how with
  | ExitedWith code => VNum (Z.of_N code)
  | KilledBy _ => VNull
  end.

(** Does the run [evs] contain the end of child [p]? *)
Definition ends (p : handle) (ev : event) : bool :=
  match ev with
  | ChildEnded q _ => bool_decide (p = q)
  | _ => false
  end.

Definition terminates (p : handle) (evs : list event) : bool := existsb (ends p) evs.

Definition is_spawn_failure (ev : event) : bool :=
  match ev with
  | SpawnFailed _ _ => true
  | _ => false
  end.

Definition is_crashed (w : World) : bool :=
  match status w with
  | Crashed _ => true
  | _ => false
  end.


(** The exit code of the supervisor, once it has one: the code given to
    [process.exit()], 0 for an event loop with nothing left to wait
    for, 1 for an exception nobody caught.  A process ended by a signal
    has none. *)
Definition exit_code (w : World) : option Z :=
  match status w with
  | Running => None
  | Exited code => Some code
  | Crashed _ => Some 1%Z
  | Signaled _ => None
  end.

(** The supervisor was told of the end of this child (a failed spawn,
    which leaves a negative code, is not one). *)
Definition reported (c : ChildProcess) : bool :=
  negb (handle_open c) && (0 <=? default 0 (exitCode c))%Z.

(** The signals the supervisor sent, or tried to send, to its children. *)
Definition kills (effs : list effect) : list (handle * string) :=
  omap (λ e, match e with Kill p sig _ => Some (p, sig) | _ => None end) effs.

(** The four effects of the interrupt handler. *)
Definition shutdown (d0 d1 : bool) : list effect :=
  [Print stopping; Kill 0 "SIGINT" d0; Kill 1 "SIGINT" d1; Exit 0].

(** The child an event is about, if any. *)
Definition concerns (ev : event) : option handle :=
  match ev with
  | SignalReceived _ => None
  | ChildEnded p _ | SpawnFailed p _ => Some p
  end.

(** ** The worlds a run can reach

    After the script has run, the world keeps one shape: the two
    children with their one listener each, the one SIGINT listener, and
    for each child whether its end was reported, and how. *)

Inductive child_state : Type :=
| Live
| Ended (how : ending)
| Failed (errno : positive).

Definition child_of (command name : string) (cs : child_state) : ChildProcess :=
  {| spawnfile := "bash";
     spawnargs := ["-lc"; command];
     stdio := StdioInherit;
     exitCode := match cs with
                 | Ended (ExitedWith code) => Some (Z.of_N code)
                 | Failed errno => Some (Z.neg errno)
                 | _ => None
                 end;
     signalCode := match cs with
                   | Ended (KilledBy sig) => Some sig
                   | _ => None
                   end;
     handle_open := match cs with Live => true | _ => false end;
     child_listeners := [("close", CloseLogger name)] |}.

Definition is_live (cs : child_state) : bool :=
  match cs with Live => true | _ => false end.

Definition is_failed (cs : child_state) : bool :=
  match cs with Failed _ => true | _ => false end.

(** The number of exit-log lines a child in this state has had. *)
Definition logged (cs : child_state) : nat :=
  match cs with Ended _ => 1 | _ => 0 end.

(** How the effects and the status go together: while the process runs
    no shutdown notice was printed and a child is still alive; a crash
    comes from a failed spawn; an exit is either the event loop running
    dry, or the interrupt handler, whose four effects are then the last
    ones. *)
Definition ending_inv (b f : child_state) (effs : list effect) (st : proc_status) : Prop :=
  match st with
  | Running =>
      (stopping ∉ lines effs) ∧ is_failed b = false ∧ is_failed f = false
      ∧ (is_live b = true ∨ is_live f = true)
  | Crashed _ =>
      (stopping ∉ lines effs) ∧ (is_failed b = true ∨ is_failed f = true)
  | Exited code =>
      code = 0%Z ∧ is_failed b = false ∧ is_failed f = false
      ∧ (((stopping ∉ lines effs) ∧ is_live b = false ∧ is_live f = false)
         ∨ ∃ pre, (stopping ∉ lines pre)
                  ∧ effs = (pre ++ [Print stopping;
                                    Kill 0 "SIGINT" (is_live b);
                                    Kill 1 "SIGINT" (is_live f);
                                    Exit 0])%list)
  | Signaled _ => (stopping ∉ lines effs)
  end.

Definition world (b f : child_state) (effs : list effect) (st : proc_status) : World :=
  {| children := [child_of backend_command "backend" b;
                  child_of frontend_command "frontend" f];
     process_listeners := [("SIGINT", StopAll 0 1)];
     effects := effs;
     status := st;
     os_refuses := linux_refuses |}.

Inductive inv : World → Prop :=
| Inv (b f : child_state) (effs : list effect) (st : proc_status) :
    spawns effs = [0; 1] →
    length (exit_lines "backend" (lines effs)) = logged b →
    length (exit_lines "frontend" (lines effs)) = logged f →
    ending_inv b f effs st →
    inv (world b f effs st).

Section Lists.

Lemma lines_app (e1 e2 : list effect) : lines (e1 ++ e2) = (lines e1 ++ lines e2)%list.
Proof. apply omap_app. Qed.

Lemma spawns_app (e1 e2 : list effect) : spawns (e1 ++ e2) = (spawns e1 ++ spawns e2)%list.
Proof. apply omap_app. Qed.

Lemma exit_lines_app (name : string) (l1 l2 : list string) :
  exit_lines name (l1 ++ l2) = (exit_lines name l1 ++ exit_lines name l2)%list.
Proof. apply List.filter_app. Qed.

End Lists.

Lemma stopping_not_exit_line (name : string) (v : value) : stopping ≠ exit_line name v.
Proof. discriminate. Qed.

Lemma backend_line (v : value) : is_exit_line "backend" (exit_line "backend" v) = true.
Proof. unfold is_exit_line, exit_line. by destruct (to_js_string v). Qed.

Lemma frontend_line (v : value) : is_exit_line "frontend" (exit_line "frontend" v) = true.
Proof. unfold is_exit_line, exit_line. by destruct (to_js_string v). Qed.

Lemma backend_line_other (v : value) : is_exit_line "frontend" (exit_line "backend" v) = false.
Proof. reflexivity. Qed.

Lemma frontend_line_other (v : value) : is_exit_line "backend" (exit_line "frontend" v) = false.
Proof. reflexivity. Qed.

Lemma inv_boot : inv boot.
Proof.
  apply (Inv Live Live (effects boot) Running); try reflexivity.
  cbn. split; [|auto].
  intros H. repeat (apply elem_of_cons in H as [H|H]; [discriminate|]).
  by apply elem_of_nil in H.
Qed.

(** *** The equations of [deliver] on such worlds *)

(** Unfolds one turn down to the worlds it goes through. *)
Ltac unfold_js :=
  cbv [deliver handler settle onexit spawn_error child_emit emit call_all call
       listeners_for run main
       console_log spawn child_on process_on kill process_exit throw
       mbind M_bind mret M_ret
       emit_effect set_children set_status is_running child_open world].

Ltac run_js := unfold_js; cbn.

Section Deliver.

Variables (b f : child_state) (effs : list effect).

Lemma deliver_ended (st : proc_status) (ev : event) :
  st ≠ Running → deliver (world b f effs st) ev = world b f effs st.
Proof. by destruct st. Qed.

Lemma deliver_sigint :
  deliver (world b f effs Running) (SignalReceived "SIGINT")
  = world b f (effs ++ [Print stopping;
                        Kill 0 "SIGINT" (is_live b);
                        Kill 1 "SIGINT" (is_live f);
                        Exit 0]) (Exited 0).
Proof.
  run_js. rewrite <- !app_assoc. by destruct b, f.
Qed.

Lemma deliver_signal (sig : string) :
  sig ≠ "SIGINT" →
  is_live b || is_live f = true →
  deliver (world b f effs Running) (SignalReceived sig)
  = world b f effs (if is_fatal sig then Signaled sig else Running).
Proof.
  intros Hsig Hlive.
  assert (String.eqb "SIGINT" sig = false) as E by (apply String.eqb_neq; congruence).
  unfold_js. cbn -[String.eqb is_fatal]. rewrite E.
  destruct (is_fatal sig); [done|]. by destruct b, f.
Qed.

Lemma deliver_backend_ended (how : ending) :
  deliver (world Live f effs Running) (ChildEnded 0 how)
  = world (Ended how) f
      (effs ++ [Print (exit_line "backend" (ending_code how))])
      (if is_live f then Running else Exited 0).
Proof. by destruct how as [[|code]|sig], f. Qed.

Lemma deliver_frontend_ended (how : ending) :
  deliver (world b Live effs Running) (ChildEnded 1 how)
  = world b (Ended how)
      (effs ++ [Print (exit_line "frontend" (ending_code how))])
      (if is_live b then Running else Exited 0).
Proof. by destruct how as [[|code]|sig], b. Qed.

Lemma deliver_backend_failed (errno : positive) :
  deliver (world Live f effs Running) (SpawnFailed 0 errno)
  = world (Failed errno) f effs (Crashed (VErr "spawn bash")).
Proof. done. Qed.

Lemma deliver_frontend_failed (errno : positive) :
  deliver (world b Live effs Running) (SpawnFailed 1 errno)
  = world b (Failed errno) effs (Crashed (VErr "spawn bash")).
Proof. by destruct b. Qed.

(** The end of a child whose handle is closed, or of no child of this
    process, is no event for it. *)
Lemma deliver_stale (ev : event) (p : handle) :
  concerns ev = Some p →
  child_open p (world b f effs Running) = false →
  is_live b || is_live f = true →
  deliver (world b f effs Running) ev = world b f effs Running.
Proof.
  intros Hp Hclosed Hlive.
  destruct ev as [sig|q how|q errno]; simplify_eq/=;
    try destruct how; unfold deliver, handler; cbn;
    rewrite Hclosed; cbn; unfold settle; cbn;
    by destruct b, f.
Qed.

End Deliver.

(** *** The shape is kept by every turn *)

Lemma lines_print (effs : list effect) (l : string) :
  lines (effs ++ [Print l]) = (lines effs ++ [l])%list.
Proof. by rewrite lines_app. Qed.

Lemma spawns_print (effs : list effect) (l : string) :
  spawns (effs ++ [Print l]) = spawns effs.
Proof. rewrite spawns_app. apply app_nil_r. Qed.

Lemma lines_interrupt (effs : list effect) (d0 d1 : bool) :
  lines (effs ++ [Print stopping; Kill 0 "SIGINT" d0; Kill 1 "SIGINT" d1; Exit 0])
  = (lines effs ++ [stopping])%list.
Proof. by rewrite lines_app. Qed.

Lemma spawns_interrupt (effs : list effect) (d0 d1 : bool) :
  spawns (effs ++ [Print stopping; Kill 0 "SIGINT" d0; Kill 1 "SIGINT" d1; Exit 0])
  = spawns effs.
Proof. rewrite spawns_app. apply app_nil_r. Qed.

Lemma exit_lines_snoc (name l : string) (ls : list string) :
  length (exit_lines name (ls ++ [l]))
  = length (exit_lines name ls) + (if is_exit_line name l then 1 else 0).
Proof.
  rewrite exit_lines_app, length_app. cbn.
  by destruct (is_exit_line name l).
Qed.

Lemma not_stopping_snoc (ls : list string) (l : string) :
  stopping ∉ ls → stopping ≠ l → stopping ∉ (ls ++ [l])%list.
Proof.
  intros Hls Hl [H|H]%elem_of_app; [done|].
  by apply list_elem_of_singleton in H.
Qed.

Lemma inv_deliver (w : World) (ev : event) : inv w → inv (deliver w ev).
Proof.
  intros [b f effs st Hs Hb Hf He].
  destruct st as [|code|err|sg]; try (rewrite deliver_ended by done; by constructor).
  destruct He as (Hstop & Hfb & Hff & Hlive).
  assert (is_live b || is_live f = true) as Hor
    by (destruct Hlive as [-> | ->]; [done | apply orb_true_r]).
  destruct ev as [sig|p how|p errno].
  - destruct (decide (sig = "SIGINT")) as [->|Hsig].
    + rewrite deliver_sigint. constructor.
      * by rewrite spawns_interrupt.
      * by rewrite lines_interrupt, exit_lines_snoc, Nat.add_0_r.
      * by rewrite lines_interrupt, exit_lines_snoc, Nat.add_0_r.
      * cbn. repeat split; try done. right. by exists effs.
    + rewrite deliver_signal by done.
      constructor; try done. by destruct (is_fatal sig).
  - destruct p as [|[|p]].
    + destruct b; try (erewrite deliver_stale; [by constructor | done..]).
      rewrite deliver_backend_ended. constructor.
      * by rewrite spawns_print.
      * by rewrite lines_print, exit_lines_snoc, backend_line, Hb.
      * by rewrite lines_print, exit_lines_snoc, backend_line_other, Nat.add_0_r.
      * destruct f; try done; cbn; rewrite lines_print.
        -- repeat split; auto using not_stopping_snoc, stopping_not_exit_line.
        -- repeat split; try done. left.
           repeat split; auto using not_stopping_snoc, stopping_not_exit_line.
    + destruct f; try (erewrite deliver_stale; [by constructor | done..]).
      rewrite deliver_frontend_ended. constructor.
      * by rewrite spawns_print.
      * by rewrite lines_print, exit_lines_snoc, frontend_line_other, Nat.add_0_r.
      * by rewrite lines_print, exit_lines_snoc, frontend_line, Hf.
      * destruct b; try done; cbn; rewrite lines_print.
        -- repeat split; auto using not_stopping_snoc, stopping_not_exit_line.
        -- repeat split; try done. left.
           repeat split; auto using not_stopping_snoc, stopping_not_exit_line.
    + erewrite deliver_stale; [by constructor | done..].
  - destruct p as [|[|p]].
    + destruct b; try (erewrite deliver_stale; [by constructor | done..]).
      rewrite deliver_backend_failed. constructor; try done. cbn. auto.
    + destruct f; try (erewrite deliver_stale; [by constructor | done..]).
      rewrite deliver_frontend_failed. constructor; try done. cbn. auto.
    + erewrite deliver_stale; [by constructor | done..].
Qed.

Lemma exec_snoc (evs : list event) (ev : event) :
  exec (evs ++ [ev]) = deliver (exec evs) ev.
Proof. unfold exec. by rewrite foldl_app. Qed.

Lemma exec_app (evs evs' : list event) :
  exec (evs ++ evs') = foldl deliver (exec evs) evs'.
Proof. unfold exec. by rewrite foldl_app. Qed.

Lemma inv_exec (evs : list event) : inv (exec evs).
Proof.
  induction evs as [|ev evs IH] using rev_ind.
  - apply inv_boot.
  - rewrite exec_snoc. by apply inv_deliver.
Qed.

(** *** Consequences used below *)

Lemma deliver_halted (w : World) (ev : event) :
  is_running w = false → deliver w ev = w.
Proof. unfold deliver. by intros ->. Qed.

Lemma foldl_deliver_halted (w : World) (evs : list event) :
  is_running w = false → foldl deliver w evs = w.
Proof.
  intros Hw. induction evs as [|ev evs IH]; [done|].
  cbn. by rewrite deliver_halted.
Qed.

Lemma exec_running (evs : list event) :
  is_running (exec evs) = true →
  ∃ b f effs,
    exec evs = world b f effs Running
    ∧ spawns effs = [0; 1]
    ∧ length (exit_lines "backend" (lines effs)) = logged b
    ∧ length (exit_lines "frontend" (lines effs)) = logged f
    ∧ ending_inv b f effs Running.
Proof.
  intros Hrun. pose proof (inv_exec evs) as Hinv.
  inversion Hinv as [b f effs st Hs Hb Hf He Hw].
  rewrite <- Hw in Hrun. destruct st; try done.
  by exists b, f, effs.
Qed.

Lemma world_lookup (b f : child_state) (effs : list effect) (st : proc_status)
    (p : handle) (c : ChildProcess) :
  children (world b f effs st) !! p = Some c →
  (p = 0 ∧ c = child_of backend_command "backend" b)
  ∨ (p = 1 ∧ c = child_of frontend_command "frontend" f).
Proof. destruct p as [|[|p]]; cbn; intros; simplify_eq; auto. Qed.

Lemma reported_child_of (command name : string) (cs : child_state) :
  reported (child_of command name cs) = match cs with Ended _ => true | _ => false end.
Proof. by destruct cs as [|[[|code]|sig]|errno]. Qed.


Lemma split_at_unique {A : Type} (x : A) (l1 l2 l1' l2' : list A) :
  (l1 ++ x :: l2 = l1' ++ x :: l2')%list → x ∉ l1' → x ∉ l2' → l1 = l1' ∧ l2 = l2'.
Proof.
  revert l1'. induction l1 as [|y l1 IH]; intros [|y' l1'] Heq H1 H2; simplify_eq/=.
  - done.
  - by apply not_elem_of_cons in H1 as [? _].
  - exfalso. apply H2, elem_of_app. right. by left.
  - apply not_elem_of_cons in H1 as [_ H1].
    destruct (IH l1') as [-> ->]; done.
Qed.

Lemma print_not_in (l : string) (effs : list effect) :
  l ∉ lines effs → Print l ∉ effs.
Proof.
  intros Hl Hin. apply Hl. unfold lines.
  apply list_elem_of_omap. by exists (Print l).
Qed.

Lemma interrupt_exits (evs : list event) :
  is_running (exec evs) = true →
  status (exec (evs ++ [SignalReceived "SIGINT"])) = Exited 0.
Proof.
  intros (b & f & effs & Hw & _)%exec_running.
  by rewrite exec_snoc, Hw, deliver_sigint.
Qed.

Lemma boot_world : boot = world Live Live (effects boot) Running.
Proof. reflexivity. Qed.

(** The end of an open child, reported to the running supervisor, adds
    the exit-log line of that child to the output, and nothing else. *)
Lemma child_end_logged (evs : list event) (p : handle) (name : string) (how : ending) :
  names !! p = Some name →
  is_running (exec evs) = true →
  child_open p (exec evs) = true →
  stdout (deliver (exec evs) (ChildEnded p how))
  = (stdout (exec evs) ++ [exit_line name (ending_code how)])%list.
Proof.
  intros Hname (b & f & effs & -> & _)%exec_running Hopen.
  destruct p as [|[|p]]; simplify_eq/=.
  - destruct b; try done. rewrite deliver_backend_ended. apply lines_print.
  - destruct f; try done. rewrite deliver_frontend_ended. apply lines_print.
Qed.

(** Only a failed spawn makes the supervisor end by an exception. *)
Lemma crash_needs_spawn_failure (w : World) (ev : event) :
  inv w → is_crashed w = false → is_spawn_failure ev = false →
  is_crashed (deliver w ev) = false.
Proof.
  intros [b f effs st Hs Hb Hf He] Hw Hev.
  destruct st as [|code|err|sg]; try (by rewrite deliver_ended).
  destruct He as (_ & _ & _ & Hlive).
  assert (is_live b || is_live f = true) as Hor
    by (destruct Hlive as [-> | ->]; [done | apply orb_true_r]).
  destruct ev as [sig|p how|p errno]; [| |done].
  - destruct (decide (sig = "SIGINT")) as [->|Hsig].
    + by rewrite deliver_sigint.
    + rewrite deliver_signal by done. by destruct (is_fatal sig).
  - destruct p as [|[|p]].
    + destruct b; try (by erewrite deliver_stale).
      rewrite deliver_backend_ended. by destruct f.
    + destruct f; try (by erewrite deliver_stale).
      rewrite deliver_frontend_ended. by destruct b.
    + by erewrite deliver_stale.
Qed.

Lemma no_crash (evs : list event) :
  existsb is_spawn_failure evs = false → is_crashed (exec evs) = false.
Proof.
  induction evs as [|ev evs IH] using rev_ind; [done|].
  rewrite existsb_app, orb_false_iff. cbn. rewrite orb_false_r.
  intros [Hevs Hev]. rewrite exec_snoc.
  apply crash_needs_spawn_failure; auto using inv_exec.
Qed.

(** ** Three runs, evaluated *)

(** Both children exit with code 0, the backend first; the event loop
    then has nothing left and the supervisor ends with code 0. *)
Example run_both_exit :
  let w := exec [ChildEnded 0 (ExitedWith 0); ChildEnded 1 (ExitedWith 0)] in
  stdout w = [banner; "Process backend stopped with code 0";
              "Process frontend stopped with code 0"]
  ∧ status w = Exited 0.
Proof. by split. Qed.

(** The operator interrupts while both children run. *)
Example run_interrupt :
  let w := exec [SignalReceived "SIGINT"] in
  effects w = (effects boot ++ [Print stopping; Kill 0 "SIGINT" true;
                                Kill 1 "SIGINT" true; Exit 0])%list
  ∧ status w = Exited 0.
Proof. by split. Qed.

(** The frontend is killed, then the interrupt comes: the kill call on
    the frontend no longer sends anything. *)
Example run_interrupt_late :
  effects (exec [ChildEnded 1 (KilledBy "SIGTERM"); SignalReceived "SIGINT"])
  = (effects boot ++ [Print "Process frontend stopped with code null";
                      Print stopping; Kill 0 "SIGINT" true;
                      Kill 1 "SIGINT" false; Exit 0])%list.
Proof. reflexivity. Qed.

(** A signal that is ignored by default leaves the supervisor running:
    the end of the backend is logged after it. *)
Example run_ignored_signal :
  let w := exec [SignalReceived "SIGWINCH"; ChildEnded 0 (ExitedWith 0)] in
  stdout w = [banner; "Process backend stopped with code 0"]
  ∧ status w = Running.
Proof. by split. Qed.

(** SIGTERM has no listener and ends the supervisor; nothing is
    forwarded to the children. *)
Example run_sigterm :
  let w := exec [SignalReceived "SIGTERM"] in
  effects w = effects boot ∧ status w = Signaled "SIGTERM".
Proof. by split. Qed.

(** Under an operating system that refuses the program, [run] throws and
    leaves the world as it was. *)
Example run_refused :
  let w := {| children := []; process_listeners := []; effects := [];
              status := Running; os_refuses := λ _, Some "E2BIG" |} in
  run "true" "job" w = (Throw (VErr "spawn E2BIG"), w).
Proof. reflexivity. Qed.

(** * Properties of the launcher *)

(** C4. On launch the banner is printed first, then exactly two processes
    are started, the backend before the frontend; the script returns
    without an event having been taken, so both children are still open
    and unreported when the launch is over. *)
Theorem C4_startup_order :
  main initial_world = (Ret (), boot)
  ∧ effects boot
    = [Print banner;
       Spawn 0 "bash" ["-lc"; backend_command] StdioInherit;
       Spawn 1 "bash" ["-lc"; frontend_command] StdioInherit]
  ∧ status boot = Running
  ∧ exec [] = boot
  ∧ Forall (λ c, handle_open c = true ∧ exitCode c = None ∧ signalCode c = None)
      (children boot).
Proof.
  repeat split; try reflexivity.
  repeat constructor.
Qed.

(** C5. Whatever events arrive, in whatever order, the processes created
    over the whole run are the two of the launch: handles 0 and 1, and
    no third. *)
Theorem C5_two_children (evs : list event) :
  spawned (exec evs) = [0; 1] ∧ length (children (exec evs)) = 2.
Proof. by destruct (inv_exec evs). Qed.




(** C1. When the interrupt reaches the running supervisor, the handler
    prints the shutdown notice, calls kill with SIGINT on the backend,
    then on the frontend (the signal goes out to each child whose handle
    is still open), and exits: these four effects, in this order, are
    all the turn does.  The children are left as they were: the
    supervisor has ended without the end of either being reported. *)
Theorem C1_interrupt_sequence (evs : list event) :
  is_running (exec evs) = true →
  let w := exec evs in
  let w' := deliver w (SignalReceived "SIGINT") in
  effects w'
  = (effects w ++ [Print stopping;
                   Kill 0 "SIGINT" (child_open 0 w);
                   Kill 1 "SIGINT" (child_open 1 w);
                   Exit 0])%list
  ∧ status w' = Exited 0
  ∧ children w' = children w
  ∧ spawnargs <$> children w !! 0 = Some ["-lc"; backend_command]
  ∧ spawnargs <$> children w !! 1 = Some ["-lc"; frontend_command].
Proof.
  intros (b & f & effs & Hw & _)%exec_running. cbn zeta.
  rewrite Hw, deliver_sigint. by destruct b, f.
Qed.

Lemma C1_interrupt_sequence_witness :
  is_running (exec []) = true
  ∧ effects (deliver (exec []) (SignalReceived "SIGINT"))
    = (effects (exec []) ++ [Print stopping;
                             Kill 0 "SIGINT" true;
                             Kill 1 "SIGINT" true;
                             Exit 0])%list.
Proof.
  split; [reflexivity|].
  exact (proj1 (C1_interrupt_sequence [] eq_refl)).
Defined.

(** C8. Once the interrupt has been handled the supervisor has exited
    with code 0.  A second interrupt, and any event after it, finds no
    running process: nothing is thrown, nothing is printed, the world
    stays as the first interrupt left it. *)
Theorem C8_second_interrupt (evs evs' : list event) :
  is_running (exec evs) = true →
  let w := exec (evs ++ [SignalReceived "SIGINT"]) in
  status w = Exited 0
  ∧ deliver w (SignalReceived "SIGINT") = w
  ∧ exec (evs ++ SignalReceived "SIGINT" :: SignalReceived "SIGINT" :: evs') = w.
Proof.
  intros Hrun. cbn zeta.
  pose proof (interrupt_exits evs Hrun) as Hst.
  assert (is_running (exec (evs ++ [SignalReceived "SIGINT"])) = false) as Hhalt
    by (unfold is_running; by rewrite Hst).
  split; [done|]. split.
  - by apply deliver_halted.
  - change (evs ++ SignalReceived "SIGINT" :: SignalReceived "SIGINT" :: evs')%list
      with (evs ++ [SignalReceived "SIGINT"] ++ SignalReceived "SIGINT" :: evs')%list.
    rewrite app_assoc, exec_app. by apply foldl_deliver_halted.
Qed.

Lemma C8_second_interrupt_witness :
  is_running (exec []) = true
  ∧ exec [SignalReceived "SIGINT"; SignalReceived "SIGINT"; ChildEnded 0 (ExitedWith 0)]
    = exec [SignalReceived "SIGINT"].
Proof.
  split; [reflexivity|].
  exact (proj2 (proj2 (C8_second_interrupt [] [ChildEnded 0 (ExitedWith 0)] eq_refl))).
Defined.

(** C9. The shutdown notice is the last line the supervisor ever prints:
    whatever stands after it in the effects of a run is the two kill
    calls and the exit of the same handler, the supervisor has exited,
    and no later event (a close of either child in particular) adds a
    line for any child. *)
Theorem C9_nothing_after_notice (evs : list event) (pre post : list effect) :
  effects (exec evs) = (pre ++ Print stopping :: post)%list →
  (∃ d0 d1, post = [Kill 0 "SIGINT" d0; Kill 1 "SIGINT" d1; Exit 0])
  ∧ lines post = []
  ∧ status (exec evs) = Exited 0
  ∧ ∀ evs', stdout (exec (evs ++ evs')) = stdout (exec evs).
Proof.
  intros Heff. pose proof (inv_exec evs) as Hinv.
  inversion Hinv as [b f effs st Hs Hb Hf He Hw].
  rewrite <- Hw in Heff. cbn in Heff.
  assert (stopping ∈ lines effs) as Hin.
  { rewrite Heff, lines_app. apply elem_of_app. right. by left. }
  assert (st = Exited 0 ∧
          ∃ pre', (stopping ∉ lines pre')
                  ∧ effs = (pre' ++ [Print stopping;
                                     Kill 0 "SIGINT" (is_live b);
                                     Kill 1 "SIGINT" (is_live f);
                                     Exit 0])%list) as [-> (pre' & Hpre' & Heffs)].
  { destruct st as [|code|err|sg]; cbn in He.
    - by destruct He as [? _].
    - destruct He as (-> & _ & _ & [[? _]|?]); [done|]. by split.
    - by destruct He as [? _].
    - done. }
  rewrite Heffs in Heff.
  apply eq_sym, split_at_unique in Heff as [-> ->].
  - repeat split; [by eexists _, _|].
    intros evs'. rewrite exec_app, Hw.
    apply (f_equal stdout), foldl_deliver_halted. by rewrite <- Hw.
  - by apply print_not_in.
  - intros Hbad. repeat (apply elem_of_cons in Hbad as [?|Hbad]; [done|]).
    by apply elem_of_nil in Hbad.
Qed.

Lemma C9_nothing_after_notice_witness :
  effects (exec [SignalReceived "SIGINT"])
  = (effects boot ++
     Print stopping :: [Kill 0 "SIGINT" true; Kill 1 "SIGINT" true; Exit 0])%list
  ∧ stdout (exec ([SignalReceived "SIGINT"] ++ [ChildEnded 0 (KilledBy "SIGINT");
                                                ChildEnded 1 (ExitedWith 130)]))
    = stdout (exec [SignalReceived "SIGINT"]).
Proof.
  split; [reflexivity|].
  exact (proj2 (proj2 (proj2
    (C9_nothing_after_notice [SignalReceived "SIGINT"]
       (effects boot) [Kill 0 "SIGINT" true; Kill 1 "SIGINT" true; Exit 0] eq_refl))) _).
Defined.

(** C6. When the backend command fails at once (its shell exits with a
    code other than 0, or is killed), the frontend has been started all
    the same and is still open, one line reports the end of the backend
    with that code or with null, and the supervisor goes on running. *)
Theorem C6_backend_fails_at_once (how : ending) :
  how ≠ ExitedWith 0 →
  let w := exec [ChildEnded 0 how] in
  stdout w = [banner; exit_line "backend" (ending_code how)]
  ∧ ending_code how ≠ VNum 0
  ∧ Spawn 1 "bash" ["-lc"; frontend_command] StdioInherit ∈ effects w
  ∧ child_open 1 w = true
  ∧ status w = Running.
Proof.
  intros Hhow. cbn zeta.
  change (exec [ChildEnded 0 how]) with (deliver boot (ChildEnded 0 how)).
  rewrite boot_world, deliver_backend_ended.
  repeat split.
  - destruct how as [code|sig]; [|done].
    intros [= Hcode]. apply Hhow. f_equal. lia.
  - cbn. do 2 right. by left.
Qed.

Lemma C6_backend_fails_at_once_witness :
  ExitedWith 1 ≠ ExitedWith 0
  ∧ stdout (exec [ChildEnded 0 (ExitedWith 1)])
    = [banner; "Process backend stopped with code 1"]
  ∧ status (exec [ChildEnded 0 (ExitedWith 1)]) = Running.
Proof.
  assert (ExitedWith 1 ≠ ExitedWith 0) as Hne by discriminate.
  pose proof (C6_backend_fails_at_once (ExitedWith 1) Hne) as H.
  split; [exact Hne|].
  split; [exact (proj1 H) | exact (proj2 (proj2 (proj2 (proj2 H))))].
Defined.

(** C2, as stated, fails: after an interrupt the supervisor has exited,
    and the frontend, killed by the forwarded SIGINT, ends without a
    line for it. *)
Lemma C2_counterexample :
  let evs := [SignalReceived "SIGINT"; ChildEnded 1 (KilledBy "SIGINT")] in
  terminates 1 evs = true
  ∧ exit_lines "frontend" (stdout (exec evs)) = []
  ∧ "Process frontend stopped with code null" ∉ stdout (exec evs).
Proof.
  repeat split. cbn.
  intros H. repeat (apply elem_of_cons in H as [H|H]; [discriminate|]).
  by apply elem_of_nil in H.
Qed.

(** C2, amended. The end of a managed process that is reported while the
    supervisor is running adds exactly one line to the output,
    [Process <name> stopped with code <code>], where the code is the
    decimal exit code (0 for an exit with code 0) or the word null for a
    process killed by a signal; once the supervisor has ended, the end
    of a process adds nothing. *)
Theorem C2_exit_line (evs : list event) (p : handle) (name : string) (how : ending) :
  names !! p = Some name →
  child_open p (exec evs) = true →
  stdout (deliver (exec evs) (ChildEnded p how))
  = (stdout (exec evs) ++
     if is_running (exec evs)
     then ["Process " +:+ name +:+ " stopped with code " +:+
           match how with
           | ExitedWith code => pretty (Z.of_N code)
           | KilledBy _ => "null"
           end]
     else [])%list
  ∧ pretty (Z.of_N 0) = "0".
Proof.
  intros Hname Hopen. split; [|done].
  destruct (is_running (exec evs)) eqn:Hrun.
  - rewrite (child_end_logged evs p name how) by done. by destruct how.
  - by rewrite deliver_halted, app_nil_r.
Qed.

Lemma C2_exit_line_witness :
  names !! 0 = Some "backend"
  ∧ child_open 0 (exec [ChildEnded 1 (KilledBy "SIGTERM")]) = true
  ∧ stdout (exec [ChildEnded 1 (KilledBy "SIGTERM"); ChildEnded 0 (ExitedWith 0)])
    = [banner; "Process frontend stopped with code null";
       "Process backend stopped with code 0"].
Proof.
  split; [reflexivity|]. split; [reflexivity|].
  exact (proj1 (C2_exit_line [ChildEnded 1 (KilledBy "SIGTERM")] 0 "backend"
                  (ExitedWith 0) eq_refl eq_refl)).
Defined.




(** C10, as stated, fails: the backend ends with code 0 after the
    interrupt has made the supervisor exit, and its termination has
    zero exit-log lines. *)
Lemma C10_counterexample :
  let evs := [SignalReceived "SIGINT"; ChildEnded 0 (ExitedWith 0)] in
  terminates 0 evs = true
  ∧ length (exit_lines "backend" (stdout (exec evs))) = 0.
Proof. by split. Qed.

(** C10, amended. Each managed process carries exactly one listener, the
    close listener that [run] registered, so a child has one exit-log
    line when its end was reported to the supervisor and none otherwise:
    never more than one, and none for a child that ends after the
    supervisor has. *)
Theorem C10_one_listener_one_line
    (evs : list event) (p : handle) (name : string) (c : ChildProcess) :
  names !! p = Some name →
  children (exec evs) !! p = Some c →
  child_listeners c = [("close", CloseLogger name)]
  ∧ length (exit_lines name (stdout (exec evs))) = (if reported c then 1 else 0)
  ∧ (length (exit_lines name (stdout (exec evs))) ≤ 1)%nat.
Proof.
  intros Hname Hc.
  assert (child_listeners c = [("close", CloseLogger name)]
          ∧ length (exit_lines name (stdout (exec evs))) = (if reported c then 1 else 0))
    as [Hl Hn].
  { destruct (inv_exec evs) as [b f effs st Hs Hb Hf He].
    apply world_lookup in Hc as [[-> ->]|[-> ->]]; simplify_eq/=;
      rewrite reported_child_of; split; try done.
    - change (stdout (world b f effs st)) with (lines effs).
      rewrite Hb. by destruct b.
    - change (stdout (world b f effs st)) with (lines effs).
      rewrite Hf. by destruct f. }
  repeat split; try done.
  rewrite Hn. destruct (reported c); lia.
Qed.

Lemma C10_one_listener_one_line_witness :
  names !! 1 = Some "frontend"
  ∧ children (exec [ChildEnded 1 (ExitedWith 0); SignalReceived "SIGINT"]) !! 1
    = Some (child_of frontend_command "frontend" (Ended (ExitedWith 0)))
  ∧ length (exit_lines "frontend"
              (stdout (exec [ChildEnded 1 (ExitedWith 0); SignalReceived "SIGINT"])))
    = 1.
Proof.
  split; [reflexivity|]. split; [reflexivity|].
  exact (proj1 (proj2 (C10_one_listener_one_line
                         [ChildEnded 1 (ExitedWith 0); SignalReceived "SIGINT"]
                         1 "frontend"
                         (child_of frontend_command "frontend" (Ended (ExitedWith 0)))
                         eq_refl eq_refl))).
Defined.

(** * Further properties *)

(** ** What one turn can add to the effects *)

Lemma turn_effects (w : World) (ev : event) :
  inv w →
  effects (deliver w ev) = effects w
  ∨ (∃ name how,
       name ∈ names ∧ is_running w = true
       ∧ effects (deliver w ev)
         = (effects w ++ [Print (exit_line name (ending_code how))])%list)
  ∨ (ev = SignalReceived "SIGINT" ∧ is_running w = true
     ∧ effects (deliver w ev)
       = (effects w ++ shutdown (child_open 0 w) (child_open 1 w))%list).
Proof.
  intros [b f effs st Hs Hb Hf He].
  destruct st as [|code|err|sg]; try (left; by rewrite deliver_ended).
  destruct He as (_ & _ & _ & Hlive).
  assert (is_live b || is_live f = true) as Hor
    by (destruct Hlive as [-> | ->]; [done | apply orb_true_r]).
  destruct ev as [sig|p how|p errno].
  - destruct (decide (sig = "SIGINT")) as [->|Hsig].
    + right; right. rewrite deliver_sigint. by destruct b, f.
    + left. by rewrite deliver_signal.
  - destruct p as [|[|p]].
    + destruct b; try (left; by erewrite deliver_stale).
      right; left. exists "backend", how. rewrite deliver_backend_ended.
      repeat split. by left.
    + destruct f; try (left; by erewrite deliver_stale).
      right; left. exists "frontend", how. rewrite deliver_frontend_ended.
      repeat split. right. by left.
    + left. by erewrite deliver_stale.
  - left. destruct p as [|[|p]].
    + destruct b; try (by erewrite deliver_stale).
      by rewrite deliver_backend_failed.
    + destruct f; try (by erewrite deliver_stale).
      by rewrite deliver_frontend_failed.
    + by erewrite deliver_stale.
Qed.

Lemma kills_app (e1 e2 : list effect) : kills (e1 ++ e2) = (kills e1 ++ kills e2)%list.
Proof. apply omap_app. Qed.

Lemma running_no_notice (w : World) :
  inv w → is_running w = true → stopping ∉ stdout w.
Proof.
  intros [b f effs st Hs Hb Hf He] Hrun.
  destruct st; try done. by destruct He as [? _].
Qed.

(** ** The shape of every trace *)

Lemma notice_in_shutdown (pre : list effect) (d0 d1 : bool) :
  stopping ∈ lines (pre ++ shutdown d0 d1).
Proof. rewrite lines_app. apply elem_of_app. right. by left. Qed.

Lemma trace_shape (evs : list event) :
  ∃ logs tail,
    effects (exec evs) = (effects boot ++ (Print <$> logs) ++ tail)%list
    ∧ Forall (λ l, ∃ name how, name ∈ names ∧ l = exit_line name (ending_code how)) logs
    ∧ (tail = [] ∨ ∃ d0 d1, tail = shutdown d0 d1).
Proof.
  induction evs as [|ev evs IH] using rev_ind.
  - exists [], []. repeat split; auto.
  - destruct IH as (logs & tail & Heff & Hlogs & Htail).
    rewrite exec_snoc.
    assert (is_running (exec evs) = true → tail = []) as Hnil.
    { intros Hrun. destruct Htail as [->|(d0 & d1 & ->)]; [done|].
      exfalso. apply (running_no_notice (exec evs)); auto using inv_exec.
      unfold stdout. rewrite Heff, app_assoc. apply notice_in_shutdown. }
    destruct (turn_effects (exec evs) ev (inv_exec evs))
      as [->|[(name & how & Hname & Hrun & ->)|(_ & Hrun & ->)]].
    + by exists logs, tail.
    + rewrite (Hnil Hrun) in Heff. rewrite app_nil_r in Heff.
      exists (logs ++ [exit_line name (ending_code how)])%list, [].
      repeat split; auto.
      * by rewrite Heff, fmap_app, app_nil_r, <- app_assoc.
      * apply Forall_app. split; [done|]. apply Forall_singleton. eauto.
    + rewrite (Hnil Hrun) in Heff. rewrite app_nil_r in Heff.
      exists logs, (shutdown (child_open 0 (exec evs)) (child_open 1 (exec evs))).
      repeat split; eauto.
      by rewrite Heff, <- app_assoc.
Qed.

Lemma logs_count (logs : list string) :
  Forall (λ l, ∃ name how, name ∈ names ∧ l = exit_line name (ending_code how)) logs →
  length logs
  = length (exit_lines "backend" logs) + length (exit_lines "frontend" logs).
Proof.
  induction 1 as [|l logs (name & how & Hname & ->) _ IH]; [done|].
  change (exit_line name (ending_code how) :: logs)
    with ([exit_line name (ending_code how)] ++ logs)%list.
  rewrite !exit_lines_app, !length_app, IH.
  unfold names in Hname.
  apply elem_of_cons in Hname as [->|Hname];
    [|apply list_elem_of_singleton in Hname as ->]; cbn [exit_lines List.filter].
  - rewrite backend_line, backend_line_other. cbn. lia.
  - rewrite frontend_line, frontend_line_other. cbn. lia.
Qed.

Lemma lines_prints (logs : list string) : lines (Print <$> logs) = logs.
Proof. induction logs as [|l logs IH]; [done|]. cbn. by f_equal. Qed.

Lemma exit_lines_tail (name : string) (tail : list effect) :
  name ∈ names →
  (tail = [] ∨ ∃ d0 d1, tail = shutdown d0 d1) →
  exit_lines name (lines tail) = [].
Proof.
  intros Hname [->|(d0 & d1 & ->)]; [done|].
  unfold names in Hname.
  apply elem_of_cons in Hname as [->|Hname];
    [|apply list_elem_of_singleton in Hname as ->]; reflexivity.
Qed.

(** X3. Every trace of the supervisor is the launch (banner, the two
    spawns), then at most two exit-log lines, each of the backend or of
    the frontend, then nothing or the four effects of the interrupt
    handler, which are then the last. *)
Theorem X3_trace_shape (evs : list event) :
  ∃ logs tail,
    effects (exec evs) = (effects boot ++ (Print <$> logs) ++ tail)%list
    ∧ Forall (λ l, ∃ name how, name ∈ names ∧ l = exit_line name (ending_code how)) logs
    ∧ (length logs ≤ 2)%nat
    ∧ (tail = [] ∨ ∃ d0 d1, tail = shutdown d0 d1).
Proof.
  destruct (trace_shape evs) as (logs & tail & Heff & Hlogs & Htail).
  exists logs, tail. repeat split; try done.
  assert (∀ name, name ∈ names →
            exit_lines name (stdout (exec evs)) = exit_lines name logs) as Hcount.
  { intros name Hname. unfold stdout.
    rewrite Heff, !lines_app, !exit_lines_app, lines_prints.
    rewrite (exit_lines_tail name tail Hname Htail), app_nil_r. unfold names in Hname.
    apply elem_of_cons in Hname as [->|Hname];
      [|apply list_elem_of_singleton in Hname as ->]; reflexivity. }
  rewrite (logs_count logs Hlogs).
  rewrite <- (Hcount "backend"), <- (Hcount "frontend")
    by (unfold names; repeat constructor).
  destruct (inv_exec evs) as [b f effs st Hs Hb Hf He].
  change (stdout (world b f effs st)) with (lines effs).
  rewrite Hb, Hf. destruct b, f; cbn; lia.
Qed.

(** X1. Without an interrupt the supervisor never signals a child: over
    a run in which no SIGINT reaches it, no kill call is made, whatever
    the children do and however they end, and the shutdown notice is
    not printed. *)
Theorem X1_no_interrupt_no_kill (evs : list event) :
  SignalReceived "SIGINT" ∉ evs →
  kills (effects (exec evs)) = [] ∧ stopping ∉ stdout (exec evs).
Proof.
  induction evs as [|ev evs IH] using rev_ind.
  - intros _. split; [done|].
    apply (running_no_notice boot); [apply inv_boot | done].
  - intros Hnot. rewrite exec_snoc.
    destruct IH as [Hk Hs].
    { intros Hin. apply Hnot, elem_of_app. by left. }
    destruct (turn_effects (exec evs) ev (inv_exec evs))
      as [Heq|[(name & how & Hname & Hrun & Heq)|(-> & _ & _)]].
    + unfold stdout. by rewrite Heq.
    + unfold stdout. rewrite Heq, kills_app, Hk, lines_print. split; [done|].
      apply not_stopping_snoc; [done | apply stopping_not_exit_line].
    + exfalso. apply Hnot, elem_of_app. right. by left.
Qed.

Lemma X1_no_interrupt_no_kill_witness :
(SignalReceived "SIGINT" ∉ [ChildEnded 0 (ExitedWith 1); SignalReceived "SIGTERM"])
  ∧ kills (effects (exec [ChildEnded 0 (ExitedWith 1); SignalReceived "SIGTERM"])) = [].
Proof.
  assert (SignalReceived "SIGINT" ∉ [ChildEnded 0 (ExitedWith 1); SignalReceived "SIGTERM"])
    as Hnot.
  { intros H. repeat (apply elem_of_cons in H as [H|H]; [discriminate|]).
    by apply elem_of_nil in H. }
  split; [exact Hnot|].
  exact (proj1 (X1_no_interrupt_no_kill
                  [ChildEnded 0 (ExitedWith 1); SignalReceived "SIGTERM"] Hnot)).
Defined.

(** X2. The supervisor never passes on the failure of a child in its own
    exit code.  Whatever codes or signals the children end with, when
    the supervisor exits its code is 0, by [process.exit()] in the
    interrupt handler or because both children are gone; the one other
    code it can have is 1, and then a spawn has failed and its error
    went uncaught. *)
Theorem X2_exit_code (evs : list event) (code : Z) :
  exit_code (exec evs) = Some code →
  code = 0%Z ∨ (code = 1%Z ∧ existsb is_spawn_failure evs = true).
Proof.
  intros Hcode.
  destruct (existsb is_spawn_failure evs) eqn:Hfail.
  - destruct (inv_exec evs) as [b f effs st Hs Hb Hf He].
    destruct st; cbn in Hcode; simplify_eq;
      [left; by destruct He as [? _] | by right].
  - left. apply no_crash in Hfail.
    destruct (inv_exec evs) as [b f effs st Hs Hb Hf He].
    destruct st; cbn in Hcode, Hfail; simplify_eq. by destruct He as [? _].
Qed.

Lemma X2_exit_code_witness :
  exit_code (exec [ChildEnded 0 (ExitedWith 1); ChildEnded 1 (KilledBy "SIGKILL")])
  = Some 0%Z
  ∧ (0%Z = 0%Z
     ∨ (0%Z = 1%Z
        ∧ existsb is_spawn_failure
            [ChildEnded 0 (ExitedWith 1); ChildEnded 1 (KilledBy "SIGKILL")] = true)).
Proof.
  split; [reflexivity|].
  exact (X2_exit_code
           [ChildEnded 0 (ExitedWith 1); ChildEnded 1 (KilledBy "SIGKILL")] 0 eq_refl).
Defined.

(** X4. Only SIGINT is listened to.  Any other signal that reaches the
    supervisor runs no code of the script: nothing is printed, no child
    is signalled, the child records stay as they are. *)
Theorem X4_other_signal_not_forwarded (evs : list event) (sig : string) :
  sig ≠ "SIGINT" →
  let w := exec evs in
  effects (deliver w (SignalReceived sig)) = effects w
  ∧ children (deliver w (SignalReceived sig)) = children w.
Proof.
  intros Hsig. cbn zeta.
  destruct (inv_exec evs) as [b f effs st Hs Hb Hf He].
  destruct st; try (by rewrite deliver_ended).
  destruct He as (_ & _ & _ & Hlive).
  rewrite deliver_signal; [done..|].
  destruct Hlive as [-> | ->]; [done | apply orb_true_r].
Qed.

Lemma X4_other_signal_not_forwarded_witness :
  "SIGTERM" ≠ "SIGINT"
  ∧ effects (deliver (exec []) (SignalReceived "SIGTERM")) = effects (exec []).
Proof.
  assert ("SIGTERM" ≠ "SIGINT") as Hne by discriminate.
  split; [exact Hne|].
  exact (proj1 (X4_other_signal_not_forwarded [] "SIGTERM" Hne)).
Defined.

(** X5. A spawn that fails always ends the supervisor, for either child:
    the error event has no listener, the supervisor ends by the
    uncaught error, prints nothing and signals nobody, and the record of
    the other child is left as it was. *)
Theorem X5_spawn_failure_crashes (evs : list event) (p : handle) (errno : positive) :
  is_running (exec evs) = true →
  child_open p (exec evs) = true →
  let w' := deliver (exec evs) (SpawnFailed p errno) in
  status w' = Crashed (VErr "spawn bash")
  ∧ effects w' = effects (exec evs)
  ∧ ∀ q, q ≠ p → children w' !! q = children (exec evs) !! q.
Proof.
  intros (b & f & effs & -> & _)%exec_running Hopen. cbn zeta.
  destruct p as [|[|p]]; [| |done].
  - destruct b; try done. rewrite deliver_backend_failed.
    repeat split. by intros [|q] Hq.
  - destruct f; try done. rewrite deliver_frontend_failed.
    repeat split. by intros [|[|q]] Hq.
Qed.

Lemma X5_spawn_failure_crashes_witness :
  is_running (exec []) = true
  ∧ child_open 1 (exec []) = true
  ∧ status (deliver (exec []) (SpawnFailed 1 13)) = Crashed (VErr "spawn bash").
Proof.
  split; [reflexivity|]. split; [reflexivity|].
  exact (proj1 (X5_spawn_failure_crashes [] 1 13 eq_refl eq_refl)).
Defined.

(** ** Reading the code back from a line *)

Lemma pretty_N_go_not_null (x : N) (s : string) :
  s ≠ "null" → pretty_N_go x s ≠ "null".
Proof.
  revert s. induction (N.lt_wf_0 x) as [x _ IH]; intros s Hs.
  assert (x = 0 ∨ 0 < x)%N as [->|Hx] by lia.
  - by rewrite pretty_N_go_0.
  - rewrite pretty_N_go_step by done. apply IH.
    { by apply N.div_lt. }
    unfold pretty_N_char. by repeat case_match.
Qed.

Lemma pretty_Z_not_null (n : Z) : pretty n ≠ "null".
Proof.
  destruct n as [|x|x]; [done| |done].
  unfold pretty, pretty_Z, pretty, pretty_positive, pretty, pretty_N.
  case_decide; [done|]. by apply pretty_N_go_not_null.
Qed.

Lemma ending_code_text_inj (h1 h2 : ending) :
  to_js_string (ending_code h1) = to_js_string (ending_code h2) →
  ending_code h1 = ending_code h2.
Proof.
  destruct h1 as [c1|s1], h2 as [c2|s2]; cbn; intros Heq.
  - by apply (inj pretty) in Heq as ->.
  - by apply pretty_Z_not_null in Heq.
  - symmetry in Heq. by apply pretty_Z_not_null in Heq.
  - done.
Qed.

(** X6. An exit-log line can be read back: two lines the supervisor can
    print for its children are equal only when they name the same child
    and carry the same code.  In particular the line of a killed child
    (code null) is never the line of any exit code. *)
Theorem X6_exit_line_decodes (name1 name2 : string) (h1 h2 : ending) :
  name1 ∈ names → name2 ∈ names →
  exit_line name1 (ending_code h1) = exit_line name2 (ending_code h2) →
  name1 = name2 ∧ ending_code h1 = ending_code h2.
Proof.
  unfold names. intros Hn1 Hn2.
  apply elem_of_cons in Hn1 as [->|Hn1];
    [|apply list_elem_of_singleton in Hn1 as ->];
  (apply elem_of_cons in Hn2 as [->|Hn2];
    [|apply list_elem_of_singleton in Hn2 as ->]);
  unfold exit_line; cbn; intros [= Heq]; split; try done;
  by apply ending_code_text_inj.
Qed.

Lemma X6_exit_line_decodes_witness :
  "backend" ∈ names
  ∧ exit_line "backend" (ending_code (ExitedWith 2))
    = exit_line "backend" (ending_code (ExitedWith 2))
  ∧ ending_code (ExitedWith 2) = ending_code (ExitedWith 2).
Proof.
  assert ("backend" ∈ names) as Hin by (unfold names; by left).
  split; [exact Hin|]. split; [reflexivity|].
  exact (proj2 (X6_exit_line_decodes "backend" "backend" (ExitedWith 2) (ExitedWith 2)
                  Hin Hin eq_refl)).
Defined.

(** X7. The two children are watched independently.  When both are still
    open and both end, each gets its line in the order the ends are
    reported, and apart from that order the outcome is the same: the
    same child records, and a supervisor that has ended with code 0
    without a shutdown notice, which no later event changes. *)
Theorem X7_ends_commute (evs evs' : list event) (h0 h1 : ending) :
  is_running (exec evs) = true →
  child_open 0 (exec evs) = true →
  child_open 1 (exec evs) = true →
  let wa := exec (evs ++ [ChildEnded 0 h0; ChildEnded 1 h1]) in
  let wb := exec (evs ++ [ChildEnded 1 h1; ChildEnded 0 h0]) in
  stdout wa = (stdout (exec evs) ++ [exit_line "backend" (ending_code h0);
                                     exit_line "frontend" (ending_code h1)])%list
  ∧ stdout wb = (stdout (exec evs) ++ [exit_line "frontend" (ending_code h1);
                                       exit_line "backend" (ending_code h0)])%list
  ∧ children wa = children wb
  ∧ status wa = Exited 0 ∧ status wb = Exited 0
  ∧ exec ((evs ++ [ChildEnded 0 h0; ChildEnded 1 h1]) ++ evs') = wa.
Proof.
  intros (b & f & effs & Hw & _)%exec_running Hb Hf. cbn zeta.
  rewrite (exec_app (evs ++ _) evs'), !exec_app, Hw in *. cbn [foldl].
  destruct b, f; try done.
  rewrite deliver_backend_ended. cbn [is_live]. rewrite deliver_frontend_ended.
  rewrite deliver_frontend_ended. cbn [is_live]. rewrite deliver_backend_ended.
  cbn [is_live]. repeat split.
  - unfold stdout; cbn [effects world]. by rewrite <- app_assoc, lines_app.
  - unfold stdout; cbn [effects world]. by rewrite <- app_assoc, lines_app.
  - by apply foldl_deliver_halted.
Qed.

Lemma X7_ends_commute_witness :
  is_running (exec []) = true
  ∧ child_open 0 (exec []) = true
  ∧ child_open 1 (exec []) = true
  ∧ children (exec ([] ++ [ChildEnded 0 (ExitedWith 0); ChildEnded 1 (KilledBy "SIGTERM")]))
    = children (exec ([] ++ [ChildEnded 1 (KilledBy "SIGTERM"); ChildEnded 0 (ExitedWith 0)])).
Proof.
  repeat (split; [reflexivity|]).
  exact (proj1 (proj2 (proj2
    (X7_ends_commute [] [] (ExitedWith 0) (KilledBy "SIGTERM") eq_refl eq_refl eq_refl)))).
Defined.
